(** * The exact Riemann solver for LWR traffic flow

    A shallow embedding of the two definitions of [riemann_traffic_exact]
    given in the traffic-flow notebook, and the properties its
    specification states about them.

    Python floats are embedded as exact rationals ([Q]); equality of
    computed values is [Qeq] ([==]).  Numpy arrays of floats are lists;
    the arrays and lists the solver allocates live in an explicit heap,
    and the code is written in a small state-and-error monad over it.
    The one division by a variable, in the shock branch, has the divisor
    [q_l - q_r] with [q_r > q_l], so it never divides by zero.

    The rationals compute without rounding; Python computes in binary64.
    Module [Binary64] repeats the arithmetic of the two definitions over
    machine floats, and decides what rounding changes. *)

From Stdlib Require Import Arith QArith Lqa List Bool Lia Floats.
Import ListNotations.
Local Open Scope Q_scope.

#[local] Set Warnings "-inexact-float".

(** ** Comparisons of floats *)

(** [Qle_bool] is in the library; the strict comparison is not. *)
Definition Qlt_bool (x y : Q) : bool :=
  (Qnum x * QDen y <? Qnum y * QDen x)%Z.

Infix "<?" := Qlt_bool (at level 70, no associativity) : Q_scope.
Infix "<=?" := Qle_bool (at level 70, no associativity) : Q_scope.

(** The value a boolean takes in float arithmetic. *)
Definition b2q (b : bool) : Q := if b then 1 else 0.

(** ** Python values and errors *)

(** What a caller may pass as [xi]: a float, or a 1-d array of floats. *)
Inductive pyval : Type :=
| PyFloat (x : Q)
| NdArray (a : list Q).

Inductive pyerr : Type :=
| TypeError
| ValueError
| IndexError.

(** An entry of the [speeds] list: a float for a shock ([[shock_speed]]),
    a two-element list for a rarefaction fan ([[[c_l, c_r]]]). *)
Inductive wave_speed : Type :=
| Shock (s : Q)
| Rarefaction (c_l c_r : Q).

(** ** Numpy's elementwise operations, as the evaluator uses them *)

Module Np.

(** Two arrays combined elementwise; numpy arrays of one shape. *)
Fixpoint zip_with {A B C} (g : A -> B -> C) (xs : list A) (ys : list B)
  : list C :=
  match xs, ys with
  | x :: xs', y :: ys' => g x y :: zip_with g xs' ys'
  | _, _ => []
  end.

(** [xi < c] *)
Definition lt_s (xi : list Q) (c : Q) : list bool :=
  map (fun x => x <? c) xi.
(** [xi <= c] *)
Definition le_s (xi : list Q) (c : Q) : list bool :=
  map (fun x => x <=? c) xi.
(** [xi >= c] *)
Definition ge_s (xi : list Q) (c : Q) : list bool :=
  map (fun x => c <=? x) xi.
(** [c < xi] *)
Definition s_lt (c : Q) (xi : list Q) : list bool :=
  map (fun x => c <? x) xi.

(** [mask * q] for a boolean array and a float *)
Definition mask_mul_s (m : list bool) (q : Q) : list Q :=
  map (fun b => b2q b * q) m.
(** [mask1 * mask2] for two boolean arrays: a boolean array *)
Definition mask_mul (m1 m2 : list bool) : list bool :=
  zip_with andb m1 m2.
(** [mask * arr] for a boolean array and a float array *)
Definition mask_mul_arr (m : list bool) (a : list Q) : list Q :=
  zip_with (fun b x => b2q b * x) m a.
(** [c - xi] *)
Definition s_sub (c : Q) (xi : list Q) : list Q :=
  map (fun x => c - x) xi.
(** [arr / c] *)
Definition div_s (a : list Q) (c : Q) : list Q :=
  map (fun x => x / c) a.
(** [arr1 + arr2] *)
Definition add (a1 a2 : list Q) : list Q :=
  zip_with Qplus a1 a2.

(** [np.zeros((rows, cols))] *)
Definition zeros (rows cols : nat) : list (list Q) :=
  repeat (repeat 0 cols) rows.

End Np.

(** ** The heap and the monad *)

Inductive obj : Type :=
| ONdArray (a : list (list Q))      (* a 2-d array of floats *)
| OList (l : list wave_speed).      (* the list [speeds] *)

Definition ref := nat.
Definition heap := list obj.

Definition M (A : Type) : Type := heap -> (pyerr + A) * heap.

Definition ret {A} (x : A) : M A := fun h => (inr x, h).

Definition bind {A B} (c : M A) (k : A -> M B) : M B :=
  fun h =>
    match c h with
    | (inl e, h') => (inl e, h')
    | (inr x, h') => k x h'
    end.

Definition raise {A} (e : pyerr) : M A := fun h => (inl e, h).

Notation "x <- c ;; k" := (bind c (fun x => k))
  (at level 61, c at next level, right associativity).
Notation "c ;;; k" := (bind c (fun _ => k))
  (at level 61, right associativity).

(** A new object, at a reference nothing else holds. *)
Definition alloc (o : obj) : M ref :=
  fun h => (inr (length h), h ++ [o]).

Definition deref (h : heap) (r : ref) : option obj := nth_error h r.

(** The list [l] with its element [i] replaced. *)
Fixpoint update {A} (l : list A) (i : nat) (x : A) : list A :=
  match l, i with
  | [], _ => []
  | _ :: l', O => x :: l'
  | y :: l', S i' => y :: update l' i' x
  end.

(** [len(xi)]: a float has no length. *)
Definition len (xi : pyval) : M nat :=
  match xi with
  | PyFloat _ => raise TypeError
  | NdArray a => ret (length a)
  end.

(** [np.zeros((rows, cols))], newly allocated. *)
Definition np_zeros (rows cols : nat) : M ref :=
  alloc (ONdArray (Np.zeros rows cols)).

(** [np.array(rows)], newly allocated. *)
Definition np_array (rows : list (list Q)) : M ref :=
  alloc (ONdArray rows).

(** [q[i,:] = row]: the row must have the shape of the slice. *)
Definition set_row (q : ref) (i : nat) (row : list Q) : M unit :=
  fun h =>
    match deref h q with
    | Some (ONdArray a) =>
        match nth_error a i with
        | Some old =>
            if Nat.eqb (length old) (length row)
            then (inr tt, update h q (ONdArray (update a i row)))
            else (inl ValueError, h)
        | None => (inl IndexError, h)
        end
    | _ => (inl TypeError, h)
    end.

(** ** The first definition: a scalar evaluator *)

Module Scalar.

(** [riemann_traffic_exact(q_l,q_r)] as first defined: it returns the
    closure [reval], which takes one float. *)
Definition riemann_traffic_exact (q_l q_r : Q) : Q -> Q :=
  let f := fun q => q * (1 - q) in
  if q_l <? q_r then (* Shock wave *)
    let shock_speed := (f q_l - f q_r) / (q_l - q_r) in
    fun xi =>
      if xi <? shock_speed then q_l
      else q_r
  else (* Rarefaction wave *)
    let c_l := 1 - 2 * q_l in
    let c_r := 1 - 2 * q_r in
    fun xi =>
      if xi <? c_l then q_l
      else if c_r <? xi then q_r
      else (1 - xi) / 2.

End Scalar.

(** ** The second definition: states, speeds and an array evaluator *)

Module Vectorized.

(** The right-hand side of [q[0,:] = ...] in the shock branch. *)
Definition shock_row (q_l q_r shock_speed : Q) (xi : list Q) : list Q :=
  Np.add (Np.mask_mul_s (Np.lt_s xi shock_speed) q_l)
         (Np.mask_mul_s (Np.ge_s xi shock_speed) q_r).

(** The right-hand side of [q[0,:] = ...] in the rarefaction branch. *)
Definition rarefaction_row (q_l q_r c_l c_r : Q) (xi : list Q) : list Q :=
  Np.add
    (Np.add (Np.mask_mul_s (Np.le_s xi c_l) q_l)
            (Np.mask_mul_s (Np.ge_s xi c_r) q_r))
    (Np.div_s
       (Np.mask_mul_arr (Np.mask_mul (Np.s_lt c_l xi) (Np.lt_s xi c_r))
                        (Np.s_sub 1 xi))
       2).

(** The body both closures share: [q = np.zeros((1,len(xi)))], the
    assignment to [q[0,:]], [return q].  The elementwise expression is
    reached with an array only, [len] having raised on a float. *)
Definition reval_body (row : list Q -> list Q) (xi : pyval) : M ref :=
  n <- len xi ;;
  q <- np_zeros 1 n ;;
  match xi with
  | NdArray a => set_row q 0 (row a) ;;; ret q
  | PyFloat _ => raise TypeError
  end.

Definition riemann_traffic_exact (q_l q_r : Q)
  : M (ref * ref * (pyval -> M ref)) :=
  let f := fun q => q * (1 - q) in
  if q_l <? q_r then (* Shock wave *)
    let shock_speed := (f q_l - f q_r) / (q_l - q_r) in
    states <- np_array [[q_l; q_r]] ;;
    speeds <- alloc (OList [Shock shock_speed]) ;;
    let reval := reval_body (shock_row q_l q_r shock_speed) in
    ret (states, speeds, reval)
  else (* Rarefaction wave *)
    let c_l := 1 - 2 * q_l in
    let c_r := 1 - 2 * q_r in
    states <- np_array [[q_l; q_r]] ;;
    speeds <- alloc (OList [Rarefaction c_l c_r]) ;;
    let reval := reval_body (rarefaction_row q_l q_r c_l c_r) in
    ret (states, speeds, reval).

(** *** What a caller sees, starting from an empty heap *)

Definition read_array (h : heap) (r : ref) : pyerr + list (list Q) :=
  match deref h r with
  | Some (ONdArray a) => inr a
  | _ => inl TypeError
  end.

(** The contents of [states] after [states, speeds, reval =
    riemann_traffic_exact(q_l,q_r)]. *)
Definition states (q_l q_r : Q) : option (list (list Q)) :=
  match riemann_traffic_exact q_l q_r [] with
  | (inr (st, _, _), h) =>
      match deref h st with
      | Some (ONdArray a) => Some a
      | _ => None
      end
  | _ => None
  end.

(** The contents of [speeds]. *)
Definition speeds (q_l q_r : Q) : option (list wave_speed) :=
  match riemann_traffic_exact q_l q_r [] with
  | (inr (_, sp, _), h) =>
      match deref h sp with
      | Some (OList l) => Some l
      | _ => None
      end
  | _ => None
  end.

(** The contents of the array that [reval(xi)] returns, or the error
    it raises. *)
Definition evaluate (q_l q_r : Q) (xi : pyval) : pyerr + list (list Q) :=
  match riemann_traffic_exact q_l q_r [] with
  | (inr (_, _, reval), h) =>
      match reval xi h with
      | (inr q, h') => read_array h' q
      | (inl e, _) => inl e
      end
  | (inl e, _) => inl e
  end.

End Vectorized.

(** ** Notions of the specification *)

(** The flux of the LWR model with unit speed limit, and its derivative,
    the characteristic speed. *)
Definition flux (q : Q) : Q := q * (1 - q).
Definition fprime (q : Q) : Q := 1 - 2 * q.

(** A density is admissible when it lies in [[0,1]]. *)
Definition density (q : Q) : Prop := 0 <= q <= 1.

(** Every number that occurs in a list of wave speeds. *)
Fixpoint speed_values (l : list wave_speed) : list Q :=
  match l with
  | [] => []
  | Shock s :: l' => s :: speed_values l'
  | Rarefaction c_l c_r :: l' => c_l :: c_r :: speed_values l'
  end.

(** ** The evaluator, one [xi] at a time *)

(** The value the shock expression takes at one [xi]. *)
Definition shock_value (q_l q_r shock_speed xi : Q) : Q :=
  b2q (xi <? shock_speed) * q_l + b2q (shock_speed <=? xi) * q_r.

(** The value the rarefaction expression takes at one [xi]. *)
Definition rarefaction_value (q_l q_r c_l c_r xi : Q) : Q :=
  b2q (xi <=? c_l) * q_l + b2q (c_r <=? xi) * q_r
  + b2q ((c_l <? xi) && (xi <? c_r)) * (1 - xi) / 2.

(** The value of the solution at one [xi], whichever branch is taken. *)
Definition value (q_l q_r xi : Q) : Q :=
  if q_l <? q_r
  then shock_value q_l q_r
         ((q_l * (1 - q_l) - q_r * (1 - q_r)) / (q_l - q_r)) xi
  else rarefaction_value q_l q_r (1 - 2 * q_l) (1 - 2 * q_r) xi.

(** The row expression of the closure the solver returns. *)
Definition row_of (q_l q_r : Q) : list Q -> list Q :=
  if q_l <? q_r
  then Vectorized.shock_row q_l q_r
         ((q_l * (1 - q_l) - q_r * (1 - q_r)) / (q_l - q_r))
  else Vectorized.rarefaction_row q_l q_r (1 - 2 * q_l) (1 - 2 * q_r).

(** The wave the solver records in [speeds]. *)
Definition wave_of (q_l q_r : Q) : wave_speed :=
  if q_l <? q_r
  then Shock ((q_l * (1 - q_l) - q_r * (1 - q_r)) / (q_l - q_r))
  else Rarefaction (1 - 2 * q_l) (1 - 2 * q_r).

(** What a call leaves to its caller: the error raised, or the contents
    of the array returned. *)
Definition outcome (res : (pyerr + ref) * heap) : pyerr + option obj :=
  match res with
  | (inl e, _) => inl e
  | (inr r, h) => inr (deref h r)
  end.

(** ** The plotting cells of the notebook *)

(** What one call [plt.plot(xs, ys, ...)] draws: the polyline through the
    points [(xs[i], ys[i])]. *)
Definition polyline : Type := (list Q * list Q)%type.

(** [np.linspace(start, stop, num)]: [num] samples, evenly spaced, the
    end point included. *)
Definition np_linspace (start stop : Q) (num : nat) : list Q :=
  match num with
  | O => []
  | 1%nat => [start]
  | _ =>
      let step := (stop - start) / inject_Z (Z.of_nat (num - 1)) in
      map (fun i => start + inject_Z (Z.of_nat i) * step) (seq 0 num)
  end.

(** [green_light(q_r,t)]: the three polylines it draws. *)
Definition green_light (q_r t : Q) : list polyline :=
  let q_l := 1 in
  let left_edge := - t in
  let right_edge := - t * (2 * q_r - 1) in
  [ ([-1; left_edge], [q_l; q_l]);
    ([left_edge; right_edge], [q_l; q_r]);
    ([right_edge; 1], [q_r; q_r]) ].

(** [plot_riemann_traffic(q_l,q_r,t)] of the first solver cell: the
    polyline [(x, q)] it draws.  Its slider keeps [t] in [[0.1, 1]]; the
    division [x/t] is the one of the rationals, meant for [t > 0]. *)
Definition plot_riemann_traffic (q_l q_r t : Q) : polyline :=
  let reval := Scalar.riemann_traffic_exact q_l q_r in
  let x := np_linspace (-2) 2 500 in
  let xi := map (fun x => x / t) x in
  let q := map reval xi in
  (x, q).

(** The first cell: [q = np.linspace(0,1)], [f = q*(1.-q)], and the
    polyline [(q, f)] it draws. *)
Definition flux_curve : polyline :=
  let q := np_linspace 0 1 50 in
  let f := map (fun q => q * (1 - q)) q in
  (q, f).

(** [c - q] for a float and an array: a new array. *)
Definition np_rsub (c : Q) (q : ref) : M ref :=
  fun h =>
    match deref h q with
    | Some (ONdArray a) => alloc (ONdArray (map (map (fun x => c - x)) a)) h
    | _ => (inl TypeError, h)
    end.

(** [np.vstack((q, u))]: a new array, the rows of [q] above the rows of
    [u]; the rows must all have one length. *)
Definition np_vstack (q u : ref) : M ref :=
  fun h =>
    match deref h q, deref h u with
    | Some (ONdArray a), Some (ONdArray b) =>
        if forallb (fun r => Nat.eqb (length r) (length (hd [] a))) (a ++ b)
        then alloc (ONdArray (a ++ b)) h
        else (inl ValueError, h)
    | _, _ => (inl TypeError, h)
    end.

(** The closure [reval_with_speed] of [plot_car_trajectories], over the
    evaluator [reval] it captures. *)
Definition reval_with_speed (reval : pyval -> M ref) (xi : pyval) : M ref :=
  q <- reval xi ;;
  u <- np_rsub 1 q ;;
  qu <- np_vstack q u ;;
  ret qu.

(** [plot_car_trajectories(q_l,q_r)], up to what it hands to
    [riemann_tools.plot_riemann_trajectories]: [states], [speeds] and
    [reval_with_speed]. *)
Definition plot_car_trajectories (q_l q_r : Q)
  : M (ref * ref * (pyval -> M ref)) :=
  sol <- Vectorized.riemann_traffic_exact q_l q_r ;;
  let '(states, speeds, reval) := sol in
  ret (states, speeds, reval_with_speed reval).

(** The contents of the array [reval_with_speed(xi)] returns, or the
    error it raises, starting from an empty heap. *)
Definition evaluate_with_speed (q_l q_r : Q) (xi : pyval)
  : pyerr + list (list Q) :=
  match plot_car_trajectories q_l q_r [] with
  | (inr (_, _, reval_with_speed), h) =>
      match reval_with_speed xi h with
      | (inr qu, h') => Vectorized.read_array h' qu
      | (inl e, _) => inl e
      end
  | (inl e, _) => inl e
  end.

(** ** The arithmetic as the machine performs it *)

(** The two definitions again, over binary64 floats: every operation is
    the IEEE operation Python performs, in the order the source writes
    it.  The heap and the rejection of a scalar [xi] are as above and are
    not repeated here: [xi] is the list of the values of the array. *)
Module Binary64.

Local Open Scope float_scope.

Inductive wave_speed : Type :=
| Shock (s : float)
| Rarefaction (c_l c_r : float).

(** The value a boolean takes in float arithmetic. *)
Definition b2f (b : bool) : float := if b then 1 else 0.

(** The flux [q*(1-q)] and the characteristic speed [1-2*q], computed. *)
Definition flux (q : float) : float := q * (1 - q).
Definition fprime (q : float) : float := 1 - 2 * q.

Module Scalar.

Definition riemann_traffic_exact (q_l q_r : float) : float -> float :=
  let f := fun q => q * (1 - q) in
  if q_l <? q_r then (* Shock wave *)
    let shock_speed := (f q_l - f q_r) / (q_l - q_r) in
    fun xi =>
      if xi <? shock_speed then q_l
      else q_r
  else (* Rarefaction wave *)
    let c_l := 1 - 2 * q_l in
    let c_r := 1 - 2 * q_r in
    fun xi =>
      if xi <? c_l then q_l
      else if c_r <? xi then q_r
      else (1 - xi) / 2.

End Scalar.

Module Vectorized.

Definition riemann_traffic_exact (q_l q_r : float)
  : list (list float) * list wave_speed * (list float -> list (list float)) :=
  let f := fun q => q * (1 - q) in
  if q_l <? q_r then (* Shock wave *)
    let shock_speed := (f q_l - f q_r) / (q_l - q_r) in
    let states := [[q_l; q_r]] in
    let speeds := [Shock shock_speed] in
    let reval := fun xi =>
      [ Np.zip_with add
          (map (fun x => b2f (x <? shock_speed) * q_l) xi)
          (map (fun x => b2f (shock_speed <=? x) * q_r) xi) ] in
    (states, speeds, reval)
  else (* Rarefaction wave *)
    let c_l := 1 - 2 * q_l in
    let c_r := 1 - 2 * q_r in
    let states := [[q_l; q_r]] in
    let speeds := [Rarefaction c_l c_r] in
    let reval := fun xi =>
      [ Np.zip_with add
          (Np.zip_with add
             (map (fun x => b2f (x <=? c_l) * q_l) xi)
             (map (fun x => b2f (c_r <=? x) * q_r) xi))
          (map (fun y => y / 2)
             (Np.zip_with (fun b y => b2f b * y)
                (Np.zip_with andb
                   (map (fun x => c_l <? x) xi)
                   (map (fun x => x <? c_r) xi))
                (map (fun x => 1 - x) xi))) ] in
    (states, speeds, reval).

(** The list [speeds] of the returned triple. *)
Definition speeds (q_l q_r : float) : list wave_speed :=
  snd (fst (riemann_traffic_exact q_l q_r)).

(** What [reval(xi)] returns. *)
Definition evaluate (q_l q_r : float) (xi : list float) : list (list float) :=
  snd (riemann_traffic_exact q_l q_r) xi.

End Vectorized.

End Binary64.

(** * Properties *)

(** ** Comparisons *)

Lemma Qlt_bool_spec (x y : Q) : reflect (x < y) (x <? y).
Proof.
  unfold Qlt_bool, Qlt.
  destruct (Qnum x * QDen y <? Qnum y * QDen x)%Z eqn:E; constructor.
  - now apply Z.ltb_lt.
  - apply Z.ltb_ge in E. lia.
Qed.

Lemma Qle_bool_spec (x y : Q) : reflect (x <= y) (x <=? y).
Proof.
  destruct (x <=? y) eqn:E; constructor.
  - now apply Qle_bool_iff.
  - intro H. apply Qle_bool_iff in H. congruence.
Qed.

Lemma Qlt_bool_true (x y : Q) : x < y -> (x <? y) = true.
Proof. destruct (Qlt_bool_spec x y); tauto. Qed.

Lemma Qlt_bool_false (x y : Q) : ~ x < y -> (x <? y) = false.
Proof. destruct (Qlt_bool_spec x y); tauto. Qed.

(** Case analysis on every comparison that occurs in the goal. *)
Ltac cases_cmp :=
  repeat match goal with
    | |- context [?x <? ?y] => destruct (Qlt_bool_spec x y)
    | |- context [?x <=? ?y] => destruct (Qle_bool_spec x y)
    end.

(** The shock speed of the code is the mean of the two characteristic
    speeds. *)
Lemma shock_speed_closed_form (q_l q_r : Q) :
  ~ q_l == q_r ->
  (q_l * (1 - q_l) - q_r * (1 - q_r)) / (q_l - q_r) == 1 - q_l - q_r.
Proof.
  intro H. field. intro H0. apply H. lra.
Qed.

(** ** Rows are computed pointwise *)

Section Pointwise.

Variables q_l q_r : Q.

Lemma shock_row_map (s : Q) (xi : list Q) :
  Vectorized.shock_row q_l q_r s xi = map (shock_value q_l q_r s) xi.
Proof.
  unfold Vectorized.shock_row, Np.add, Np.mask_mul_s, Np.lt_s, Np.ge_s.
  induction xi as [|x xi IH]; simpl.
  - reflexivity.
  - now rewrite IH.
Qed.

Lemma rarefaction_row_map (c_l c_r : Q) (xi : list Q) :
  Vectorized.rarefaction_row q_l q_r c_l c_r xi
  = map (rarefaction_value q_l q_r c_l c_r) xi.
Proof.
  unfold Vectorized.rarefaction_row, Np.add, Np.mask_mul_s, Np.div_s,
    Np.mask_mul_arr, Np.mask_mul, Np.le_s, Np.ge_s, Np.s_lt, Np.lt_s,
    Np.s_sub.
  induction xi as [|x xi IH]; simpl.
  - reflexivity.
  - now rewrite IH.
Qed.

End Pointwise.

(** ** The heap *)

Lemma deref_alloc (h : heap) (o : obj) : deref (h ++ [o]) (length h) = Some o.
Proof.
  unfold deref. rewrite nth_error_app2 by lia.
  now rewrite Nat.sub_diag.
Qed.

Lemma deref_old (h h' : heap) (r : ref) :
  (r < length h)%nat -> deref (h ++ h') r = deref h r.
Proof. intro H. unfold deref. now apply nth_error_app1. Qed.

Lemma update_last {A} (l : list A) (x y : A) :
  update (l ++ [x]) (length l) y = l ++ [y].
Proof.
  induction l as [|z l IH]; simpl.
  - reflexivity.
  - now rewrite IH.
Qed.

Lemma firstn_app_length {A} (l k : list A) : firstn (length l) (l ++ k) = l.
Proof.
  induction l as [|x l IH]; simpl.
  - reflexivity.
  - now rewrite IH.
Qed.

(** ** What the evaluator does to the heap *)

Section Evaluator.

Variable row : list Q -> list Q.
Hypothesis row_length : forall a, length (row a) = length a.

(** On an array the evaluator allocates one array of shape (1, n), fills
    its row and returns it; nothing that was in the heap is touched. *)
Lemma reval_body_array (a : list Q) (h : heap) :
  Vectorized.reval_body row (NdArray a) h
  = (inr (length h), h ++ [ONdArray [row a]]).
Proof.
  unfold Vectorized.reval_body, bind, len, ret, np_zeros, alloc, set_row.
  rewrite deref_alloc. simpl.
  rewrite repeat_length, row_length, Nat.eqb_refl.
  now rewrite update_last.
Qed.

(** On a float the evaluator raises at [len(xi)], the heap unchanged. *)
Lemma reval_body_float (x : Q) (h : heap) :
  Vectorized.reval_body row (PyFloat x) h = (inl TypeError, h).
Proof. reflexivity. Qed.

End Evaluator.

Lemma shock_row_length (q_l q_r s : Q) (a : list Q) :
  length (Vectorized.shock_row q_l q_r s a) = length a.
Proof. rewrite shock_row_map. apply length_map. Qed.

Lemma rarefaction_row_length (q_l q_r c_l c_r : Q) (a : list Q) :
  length (Vectorized.rarefaction_row q_l q_r c_l c_r a) = length a.
Proof. rewrite rarefaction_row_map. apply length_map. Qed.

(** ** What the solver returns *)

Lemma row_of_length (q_l q_r : Q) (a : list Q) :
  length (row_of q_l q_r a) = length a.
Proof.
  unfold row_of. destruct (q_l <? q_r).
  - apply shock_row_length.
  - apply rarefaction_row_length.
Qed.

Lemma row_of_map (q_l q_r : Q) (a : list Q) :
  row_of q_l q_r a = map (value q_l q_r) a.
Proof.
  unfold row_of, value. destruct (q_l <? q_r).
  - apply shock_row_map.
  - apply rarefaction_row_map.
Qed.

(** The solver allocates [states], then [speeds], and returns them with
    the closure; it never fails. *)
Lemma riemann_traffic_exact_run (q_l q_r : Q) (h : heap) :
  Vectorized.riemann_traffic_exact q_l q_r h
  = (inr (length h, S (length h), Vectorized.reval_body (row_of q_l q_r)),
     h ++ [ONdArray [[q_l; q_r]]; OList [wave_of q_l q_r]]).
Proof.
  unfold Vectorized.riemann_traffic_exact, row_of, wave_of.
  destruct (q_l <? q_r);
    unfold bind, np_array, alloc, ret;
    rewrite length_app, Nat.add_1_r, <- app_assoc; reflexivity.
Qed.

Lemma states_eq (q_l q_r : Q) : Vectorized.states q_l q_r = Some [[q_l; q_r]].
Proof.
  unfold Vectorized.states. now rewrite riemann_traffic_exact_run.
Qed.

Lemma speeds_eq (q_l q_r : Q) :
  Vectorized.speeds q_l q_r = Some [wave_of q_l q_r].
Proof.
  unfold Vectorized.speeds. now rewrite riemann_traffic_exact_run.
Qed.

Lemma evaluate_array (q_l q_r : Q) (a : list Q) :
  Vectorized.evaluate q_l q_r (NdArray a) = inr [map (value q_l q_r) a].
Proof.
  unfold Vectorized.evaluate. rewrite riemann_traffic_exact_run.
  rewrite reval_body_array by apply row_of_length.
  unfold Vectorized.read_array.
  now rewrite deref_alloc, row_of_map.
Qed.

Lemma evaluate_float (q_l q_r x : Q) :
  Vectorized.evaluate q_l q_r (PyFloat x) = inl TypeError.
Proof.
  unfold Vectorized.evaluate. now rewrite riemann_traffic_exact_run.
Qed.

Lemma Forall2_map_same {A B} (P : A -> B -> Prop) (g : A -> B) (l : list A) :
  (forall x, P x (g x)) -> Forall2 P l (map g l).
Proof.
  intro H. induction l as [|x l IH]; simpl; constructor; auto.
Qed.

(** ** Values of the solution *)

Ltac value_cases :=
  unfold value, shock_value, rarefaction_value;
  cases_cmp; simpl andb; unfold b2q, Qdiv; change (/ 2) with (1 # 2).

Section Values.

Variables q_l q_r : Q.

Lemma shock_value_below (s xi : Q) :
  xi < s -> shock_value q_l q_r s xi == q_l.
Proof. intro H. value_cases; lra. Qed.

Lemma shock_value_from (s xi : Q) :
  s <= xi -> shock_value q_l q_r s xi == q_r.
Proof. intro H. value_cases; lra. Qed.

Lemma rarefaction_value_below (c_l c_r xi : Q) :
  c_l <= c_r -> xi < c_l -> rarefaction_value q_l q_r c_l c_r xi == q_l.
Proof. intros H H0. value_cases; lra. Qed.

Lemma rarefaction_value_above (c_l c_r xi : Q) :
  c_l <= c_r -> c_r < xi -> rarefaction_value q_l q_r c_l c_r xi == q_r.
Proof. intros H H0. value_cases; lra. Qed.

Lemma rarefaction_value_inside (c_l c_r xi : Q) :
  c_l < xi < c_r -> rarefaction_value q_l q_r c_l c_r xi == (1 - xi) / 2.
Proof. intros [H H0]. value_cases; lra. Qed.

End Values.

(** ** Equal states *)

(** With equal states the rarefaction branch is taken and its fan is the
    single point [1-2*q]; away from it the evaluator returns the common
    state. *)
Lemma equal_states_value_off_fan (q xi : Q) :
  ~ xi == 1 - 2 * q -> value q q xi == q.
Proof.
  intro H. assert (H0 : ~ q < q) by lra.
  value_cases; lra.
Qed.

(** At the fan both [(xi<=c_l)] and [(xi>=c_r)] hold, and the evaluator
    returns the sum of the two states. *)
Lemma equal_states_value_on_fan (q : Q) : value q q (1 - 2 * q) == 2 * q.
Proof. value_cases; lra. Qed.

(** The first definition returns the common state everywhere. *)
Lemma scalar_equal_states (q xi : Q) :
  Scalar.riemann_traffic_exact q q xi == q.
Proof.
  unfold Scalar.riemann_traffic_exact. assert (H : ~ q < q) by lra.
  value_cases; lra.
Qed.

(** * The claims of the specification *)

(** In binary64 the characteristic speeds [1-2*q] of two adjacent
    densities can be equal: for [q_l = 0.09999999999999999] and
    [q_r = 0.1] both are [0.8], so that [f'(q_l) > f'(q_r)] does not hold,
    and yet the solver returns a shock, not a rarefaction. *)
Lemma C1_shock_with_equal_characteristic_speeds :
  (Binary64.fprime 0.09999999999999999 = Binary64.fprime 0.1 /\
   (Binary64.fprime 0.1 <? Binary64.fprime 0.09999999999999999) = false /\
   Binary64.Vectorized.speeds 0.09999999999999999 0.1
   = [Binary64.Shock 1])%float.
Proof. repeat split. Qed.

(** C1, as the code has it.  For densities [q_l], [q_r] in [[0,1]] the
    solver classifies the wave by the test [q_r > q_l]: if it holds,
    [speeds] holds a single shock of speed [(f(q_l)-f(q_r))/(q_l-q_r)],
    where [f(q) = q*(1-q)]; otherwise [speeds] holds a single rarefaction
    whose interval is [[1-2*q_l, 1-2*q_r]].  Whenever
    [f'(q_l) > f'(q_r)], with [f'(q) = 1-2*q], the test holds and a shock
    is returned. *)
Theorem C1_classification_by_density_test (q_l q_r : Q) :
  density q_l -> density q_r ->
  (q_l < q_r ->
   Vectorized.speeds q_l q_r
   = Some [Shock ((flux q_l - flux q_r) / (q_l - q_r))]) /\
  (~ q_l < q_r ->
   Vectorized.speeds q_l q_r
   = Some [Rarefaction (1 - 2 * q_l) (1 - 2 * q_r)]) /\
  (fprime q_r < fprime q_l ->
   q_l < q_r /\
   Vectorized.speeds q_l q_r
   = Some [Shock ((flux q_l - flux q_r) / (q_l - q_r))]).
Proof.
  intros _ _.
  assert (S : q_l < q_r ->
              Vectorized.speeds q_l q_r
              = Some [Shock ((flux q_l - flux q_r) / (q_l - q_r))]).
  { intro H. rewrite speeds_eq. unfold wave_of.
    now rewrite (Qlt_bool_true _ _ H). }
  split; [exact S|]. split.
  - intro H. rewrite speeds_eq. unfold wave_of.
    now rewrite (Qlt_bool_false _ _ H).
  - intro H. assert (L : q_l < q_r) by (unfold fprime in H; lra).
    split; [exact L | exact (S L)].
Qed.

Lemma C1_classification_by_density_test_witness :
  density 0.2 /\ density 1 /\ 0.2 < 1 /\
  Vectorized.speeds 0.2 1 = Some [Shock ((flux 0.2 - flux 1) / (0.2 - 1))].
Proof.
  assert (Hl : density 0.2) by (unfold density; lra).
  assert (Hr : density 1) by (unfold density; lra).
  assert (H : 0.2 < 1) by lra.
  split; [exact Hl | split; [exact Hr | split; [exact H |]]].
  exact (proj1 (C1_classification_by_density_test 0.2 1 Hl Hr) H).
Defined.

(** C2. The claim is that for [q_l = q_r] the evaluator returns the common
    state at every [xi], also at [xi = 1-2*q_l].  The code does not: for
    [q_l = q_r = 0.5] and [xi = 0 = 1-2*0.5] it returns [1], not [0.5]. *)
Theorem C2_equal_states_doubled_at_fan :
  0 == 1 - 2 * 0.5 /\
  exists v, Vectorized.evaluate 0.5 0.5 (NdArray [0]) = inr [[v]] /\
            v == 1 /\ ~ v == 0.5.
Proof.
  split; [lra|].
  rewrite evaluate_array. simpl map.
  eexists; split; [reflexivity|].
  split; [reflexivity | discriminate].
Qed.

(** C3. In the rarefaction case ([q_r <= q_l], both in [[0,1]]) the
    evaluator returns exactly [(1-xi)/2] at every [xi] strictly between
    [c_l = 1-2*q_l] and [c_r = 1-2*q_r]; for [q_l = 1], [q_r = 0] the
    solution is a single rarefaction spanning [[-1,1]] and its value at
    [xi = 0] is [0.5]. *)
Theorem C3_rarefaction_profile :
  (forall (q_l q_r : Q) (a : list Q),
      density q_l -> density q_r -> q_r <= q_l ->
      exists row,
        Vectorized.evaluate q_l q_r (NdArray a) = inr [row] /\
        Forall2 (fun xi v =>
                   1 - 2 * q_l < xi < 1 - 2 * q_r -> v == (1 - xi) / 2)
                a row) /\
  (exists c_l c_r,
      Vectorized.speeds 1 0 = Some [Rarefaction c_l c_r] /\
      c_l == -1 /\ c_r == 1) /\
  (exists v, Vectorized.evaluate 1 0 (NdArray [0]) = inr [[v]] /\ v == 0.5).
Proof.
  split; [|split].
  - intros q_l q_r a _ _ H.
    rewrite evaluate_array. eexists; split; [reflexivity|].
    apply Forall2_map_same. intros xi Hxi.
    unfold value. rewrite Qlt_bool_false by lra.
    now apply rarefaction_value_inside.
  - rewrite speeds_eq. do 2 eexists.
    split; [reflexivity|]. split; reflexivity.
  - rewrite evaluate_array. eexists; split; reflexivity.
Qed.

Lemma C3_rarefaction_profile_witness :
  density 0.9 /\ density 0.3 /\ 0.3 <= 0.9 /\
  exists row,
    Vectorized.evaluate 0.9 0.3 (NdArray [0; -1; 1]) = inr [row] /\
    Forall2 (fun xi v =>
               1 - 2 * 0.9 < xi < 1 - 2 * 0.3 -> v == (1 - xi) / 2)
            [0; -1; 1] row.
Proof.
  assert (Hl : density 0.9) by (unfold density; lra).
  assert (Hr : density 0.3) by (unfold density; lra).
  assert (H : 0.3 <= 0.9) by lra.
  split; [exact Hl | split; [exact Hr | split; [exact H |]]].
  exact (proj1 C3_rarefaction_profile 0.9 0.3 [0; -1; 1] Hl Hr H).
Defined.

(** C4. For [q_l], [q_r] in [[0,1]]: at every [xi] strictly below all wave
    speeds of the solution the evaluator returns exactly [q_l], and at
    every [xi] strictly above all of them exactly [q_r]. *)
Theorem C4_outer_states (q_l q_r : Q) (a : list Q) :
  density q_l -> density q_r ->
  exists sp row,
    Vectorized.speeds q_l q_r = Some sp /\
    Vectorized.evaluate q_l q_r (NdArray a) = inr [row] /\
    Forall2 (fun xi v =>
               (Forall (fun s => xi < s) (speed_values sp) -> v == q_l) /\
               (Forall (fun s => s < xi) (speed_values sp) -> v == q_r))
            a row.
Proof.
  intros _ _.
  rewrite speeds_eq, evaluate_array.
  do 2 eexists. split; [reflexivity|]. split; [reflexivity|].
  apply Forall2_map_same. intro xi.
  unfold wave_of, value.
  destruct (Qlt_bool_spec q_l q_r) as [H|H]; simpl speed_values.
  - split; intro F; inversion_clear F.
    + now apply shock_value_below.
    + apply shock_value_from. lra.
  - split; intro F; inversion_clear F as [|? ? ? F'];
      inversion_clear F'.
    + apply rarefaction_value_below; lra.
    + apply rarefaction_value_above; lra.
Qed.

Lemma C4_outer_states_witness :
  density 0.4 /\ density 0.9 /\
  exists sp row,
    Vectorized.speeds 0.4 0.9 = Some sp /\
    Vectorized.evaluate 0.4 0.9 (NdArray [-2; 2]) = inr [row] /\
    Forall2 (fun xi v =>
               (Forall (fun s => xi < s) (speed_values sp) -> v == 0.4) /\
               (Forall (fun s => s < xi) (speed_values sp) -> v == 0.9))
            [-2; 2] row.
Proof.
  assert (Hl : density 0.4) by (unfold density; lra).
  assert (Hr : density 0.9) by (unfold density; lra).
  split; [exact Hl | split; [exact Hr |]].
  exact (C4_outer_states 0.4 0.9 [-2; 2] Hl Hr).
Defined.

(** C5. Whenever the solver returns a shock ([q_r > q_l]) the evaluator
    is right-continuous at it: at [xi] equal to the shock speed it returns
    the right state [q_r], not [q_l].  The evaluator of the first
    definition does the same. *)
Theorem C5_right_continuous_at_shock (q_l q_r : Q) (a : list Q) :
  q_l < q_r ->
  exists s row,
    Vectorized.speeds q_l q_r = Some [Shock s] /\
    Vectorized.evaluate q_l q_r (NdArray a) = inr [row] /\
    Forall2 (fun xi v => xi == s -> v == q_r /\ ~ v == q_l) a row /\
    (forall xi, xi == s -> Scalar.riemann_traffic_exact q_l q_r xi = q_r).
Proof.
  intro H.
  rewrite speeds_eq, evaluate_array.
  unfold wave_of, value, Scalar.riemann_traffic_exact.
  rewrite (Qlt_bool_true _ _ H).
  do 2 eexists. split; [reflexivity|]. split; [reflexivity|]. split.
  - apply Forall2_map_same. intros xi Hxi.
    assert (E : shock_value q_l q_r
                  ((q_l * (1 - q_l) - q_r * (1 - q_r)) / (q_l - q_r)) xi
                == q_r)
      by (apply shock_value_from; rewrite Hxi; apply Qle_refl).
    split; [exact E|].
    rewrite E. lra.
  - intros xi Hxi. cbv zeta.
    rewrite Qlt_bool_false; [reflexivity|].
    rewrite Hxi. apply Qlt_irrefl.
Qed.

Lemma C5_right_continuous_at_shock_witness :
  0.2 < 1 /\
  exists s row,
    Vectorized.speeds 0.2 1 = Some [Shock s] /\
    Vectorized.evaluate 0.2 1 (NdArray [-0.2]) = inr [row] /\
    Forall2 (fun xi v => xi == s -> v == 1 /\ ~ v == 0.2) [-0.2] row /\
    (forall xi, xi == s -> Scalar.riemann_traffic_exact 0.2 1 xi = 1).
Proof.
  assert (H : 0.2 < 1) by lra.
  split; [exact H|].
  exact (C5_right_continuous_at_shock 0.2 1 [-0.2] H).
Defined.




(** The evaluator takes no scalar: [len(xi)] raises on a float. *)
Lemma C7_scalar_is_rejected :
  Vectorized.evaluate 0.2 1 (PyFloat 0) = inl TypeError /\
  ~ exists q, Vectorized.evaluate 0.2 1 (PyFloat 0) = inr q.
Proof.
  rewrite evaluate_float. split; [reflexivity|].
  intros [q H]. discriminate H.
Qed.

(** C7, as the code has it.  The evaluator accepts an array of [n] values
    of [xi] and returns an array of shape [(1, n)]; applied to a scalar
    [xi] it raises a [TypeError]. *)
Theorem C7_evaluator_takes_arrays (q_l q_r : Q) :
  (forall a : list Q,
      exists row,
        Vectorized.evaluate q_l q_r (NdArray a) = inr [row] /\
        length row = length a) /\
  (forall x : Q, Vectorized.evaluate q_l q_r (PyFloat x) = inl TypeError).
Proof.
  split.
  - intro a. rewrite evaluate_array.
    eexists; split; [reflexivity | apply length_map].
  - intro x. apply evaluate_float.
Qed.

(** In binary64 the speed returned for the red light is not [-0.2], and
    so not [-q_l]: the quotient rounds to the next float below. *)
Lemma C8_red_light_speed_is_not_minus_q_l :
  (exists s,
      Binary64.Vectorized.speeds 0.2 1 = [Binary64.Shock s] /\
      (s =? -0.2) = false /\ (s <? -0.2) = true)%float.
Proof. eexists. repeat split. Qed.

(** C8, as the code has it.  For the red light, [q_l = 0.2] and
    [q_r = 1], the solver returns a single shock moving left, of speed
    [(f(0.2)-f(1.0))/(0.2-1.0)], which binary64 computes as
    [-0.20000000000000004], the float next below [-0.2]; for [q_r = 1]
    and [0 <= q_l < 1] in general it returns a single shock whose speed
    [(f(q_l)-f(1))/(q_l-1)] is never positive, and negative when
    [q_l > 0]. *)
Theorem C8_red_light_shock_moves_left :
  (Binary64.Vectorized.speeds 0.2 1
   = [Binary64.Shock (-0.20000000000000004)] /\
   (-0.20000000000000004 <? 0) = true /\
   next_down (-0.2) = -0.20000000000000004)%float /\
  (forall q_l : Q,
      0 <= q_l -> q_l < 1 ->
      exists s,
        Vectorized.speeds q_l 1 = Some [Shock s] /\
        s = (flux q_l - flux 1) / (q_l - 1) /\
        s <= 0 /\ (0 < q_l -> s < 0)).
Proof.
  split; [repeat split|].
  intros q_l H0 H.
  rewrite speeds_eq. unfold wave_of. rewrite (Qlt_bool_true _ _ H).
  eexists. split; [reflexivity|]. split; [reflexivity|].
  rewrite shock_speed_closed_form by lra.
  split; [|intro]; lra.
Qed.

Lemma C8_red_light_shock_moves_left_witness :
  0 <= 0.5 /\ 0.5 < 1 /\
  exists s,
    Vectorized.speeds 0.5 1 = Some [Shock s] /\
    s = (flux 0.5 - flux 1) / (0.5 - 1) /\
    s <= 0 /\ (0 < 0.5 -> s < 0).
Proof.
  assert (H0 : 0 <= 0.5) by lra.
  assert (H1 : 0.5 < 1) by lra.
  split; [exact H0 | split; [exact H1 |]].
  exact (proj2 C8_red_light_shock_moves_left 0.5 H0 H1).
Defined.

(** C9. The evaluator the solver returns is deterministic and stateless.
    Its outcome depends on [xi] alone, not on the heap it is called in;
    two calls in a row with the same [xi] both fail with the same error, or
    return two distinct arrays of equal contents; a call leaves every
    object that was in the heap as it was, the returned [states] and
    [speeds] among them. *)
Theorem C9_evaluator_deterministic_stateless (q_l q_r : Q) (h0 : heap) :
  exists st sp reval h1,
    Vectorized.riemann_traffic_exact q_l q_r h0 = (inr (st, sp, reval), h1) /\
    (forall xi h h', outcome (reval xi h) = outcome (reval xi h')) /\
    (forall xi h,
        let (res1, h') := reval xi h in
        let (res2, h'') := reval xi h' in
        match res1, res2 with
        | inr r1, inr r2 =>
            r1 <> r2 /\ deref h'' r1 = deref h'' r2 /\ deref h'' r1 <> None
        | inl e1, inl e2 => e1 = e2
        | _, _ => False
        end) /\
    (forall xi h, firstn (length h) (snd (reval xi h)) = h) /\
    deref h1 st = Some (ONdArray [[q_l; q_r]]) /\
    (exists w, deref h1 sp = Some (OList [w])) /\
    (forall xi k,
        deref (snd (reval xi (h1 ++ k))) st = deref h1 st /\
        deref (snd (reval xi (h1 ++ k))) sp = deref h1 sp).
Proof.
  rewrite riemann_traffic_exact_run.
  do 4 eexists. split; [reflexivity|].
  set (h1 := h0 ++ _).
  assert (R : forall a h,
             Vectorized.reval_body (row_of q_l q_r) (NdArray a) h
             = (inr (length h), h ++ [ONdArray [row_of q_l q_r a]]))
    by (intros; apply reval_body_array, row_of_length).
  assert (Hst : deref h1 (length h0) = Some (ONdArray [[q_l; q_r]]))
    by (unfold deref; subst h1; rewrite nth_error_app2 by lia;
        now rewrite Nat.sub_diag).
  assert (Hsp : deref h1 (S (length h0)) = Some (OList [wave_of q_l q_r]))
    by (unfold deref; subst h1; rewrite nth_error_app2 by lia;
        now replace (S (length h0) - length h0)%nat with 1%nat by lia).
  assert (L : length h1 = S (S (length h0)))
    by (subst h1; rewrite length_app; simpl; lia).
  repeat split.
  - intros [x|a] h h'; [reflexivity|].
    rewrite !R. unfold outcome. now rewrite !deref_alloc.
  - intros [x|a] h; [reflexivity|].
    rewrite !R.
    repeat split.
    + rewrite length_app. simpl. lia.
    + rewrite deref_alloc, deref_old by (rewrite length_app; simpl; lia).
      now rewrite deref_alloc.
    + rewrite deref_old by (rewrite length_app; simpl; lia).
      rewrite deref_alloc. discriminate.
  - intros [x|a] h; [now rewrite reval_body_float, firstn_all|].
    rewrite R. apply firstn_app_length.
  - exact Hst.
  - eexists. exact Hsp.
  - destruct xi as [x|a]; [rewrite reval_body_float | rewrite R];
      simpl snd; rewrite ?deref_old;
      try reflexivity; rewrite ?length_app; lia.
  - destruct xi as [x|a]; [rewrite reval_body_float | rewrite R];
      simpl snd; rewrite ?deref_old;
      try reflexivity; rewrite ?length_app; lia.
Qed.




(** * Further properties of the solver *)

(** A difference of fluxes, factored. *)
Lemma flux_difference (p q : Q) :
  flux p - flux q == (p - q) * (1 - p - q).
Proof. unfold flux. ring. Qed.

(** X5. A shock returned for densities in [[0,1]] moves left exactly when
    the flux behind it exceeds the flux ahead of it, [f(q_l) > f(q_r)],
    right exactly when [f(q_l) < f(q_r)], and stands still exactly when
    the two fluxes are equal. *)
Theorem shock_direction_by_flux (q_l q_r : Q) :
  density q_l -> density q_r -> q_l < q_r ->
  exists s,
    Vectorized.speeds q_l q_r = Some [Shock s] /\
    (s < 0 <-> flux q_r < flux q_l) /\
    (0 < s <-> flux q_l < flux q_r) /\
    (s == 0 <-> flux q_l == flux q_r).
Proof.
  intros _ _ H.
  rewrite speeds_eq. unfold wave_of. rewrite (Qlt_bool_true _ _ H).
  eexists. split; [reflexivity|].
  rewrite shock_speed_closed_form by lra.
  assert (E := flux_difference q_l q_r).
  set (m := 1 - q_l - q_r) in *.
  assert (D : q_l - q_r < 0) by lra.
  repeat split; intro; nra.
Qed.

Lemma shock_direction_by_flux_witness :
  density 0.4 /\ density 0.9 /\ 0.4 < 0.9 /\
  exists s,
    Vectorized.speeds 0.4 0.9 = Some [Shock s] /\
    (s < 0 <-> flux 0.9 < flux 0.4) /\
    (0 < s <-> flux 0.4 < flux 0.9) /\
    (s == 0 <-> flux 0.4 == flux 0.9).
Proof.
  assert (Hl : density 0.4) by (unfold density; lra).
  assert (Hr : density 0.9) by (unfold density; lra).
  assert (H : 0.4 < 0.9) by lra.
  split; [exact Hl | split; [exact Hr | split; [exact H |]]].
  exact (shock_direction_by_flux 0.4 0.9 Hl Hr H).
Defined.

(** X6. For densities in [[0,1]] with [q_r <= q_l] the interval of the
    returned rarefaction is ordered and no faster than the free speed 1:
    [-1 <= c_l <= c_r <= 1]. *)
Theorem rarefaction_fan_ordered (q_l q_r : Q) :
  density q_l -> density q_r -> q_r <= q_l ->
  exists c_l c_r,
    Vectorized.speeds q_l q_r = Some [Rarefaction c_l c_r] /\
    -1 <= c_l /\ c_l <= c_r /\ c_r <= 1.
Proof.
  unfold density. intros Hl Hr H.
  rewrite speeds_eq. unfold wave_of. rewrite Qlt_bool_false by lra.
  do 2 eexists. split; [reflexivity|]. repeat split; lra.
Qed.

Lemma rarefaction_fan_ordered_witness :
  density 0.9 /\ density 0.3 /\ 0.3 <= 0.9 /\
  exists c_l c_r,
    Vectorized.speeds 0.9 0.3 = Some [Rarefaction c_l c_r] /\
    -1 <= c_l /\ c_l <= c_r /\ c_r <= 1.
Proof.
  assert (Hl : density 0.9) by (unfold density; lra).
  assert (Hr : density 0.3) by (unfold density; lra).
  assert (H : 0.3 <= 0.9) by lra.
  split; [exact Hl | split; [exact Hr | split; [exact H |]]].
  exact (rarefaction_fan_ordered 0.9 0.3 Hl Hr H).
Defined.

(** X13. Across a shock between densities in [[0,1]] the state the scalar
    evaluator returns at [xi = 0], on the interface, is whichever of
    [q_l] and [q_r] has the smaller flux: its flux is the Godunov flux
    [min(f(q_l), f(q_r))]. *)
Theorem interface_state_across_shock (q_l q_r : Q) :
  density q_l -> density q_r -> q_l < q_r ->
  let v := Scalar.riemann_traffic_exact q_l q_r 0 in
  (v = q_l \/ v = q_r) /\ flux v <= flux q_l /\ flux v <= flux q_r.
Proof.
  intros _ _ H. unfold Scalar.riemann_traffic_exact. cbv zeta.
  rewrite (Qlt_bool_true _ _ H).
  assert (E := flux_difference q_l q_r).
  assert (D : q_l - q_r < 0) by lra.
  destruct (Qlt_bool_spec 0
              ((q_l * (1 - q_l) - q_r * (1 - q_r)) / (q_l - q_r)))
    as [L|L]; rewrite shock_speed_closed_form in L by lra.
  - split; [now left|]. split; [apply Qle_refl | nra].
  - split; [now right|]. split; [nra | apply Qle_refl].
Qed.

Lemma interface_state_across_shock_witness :
  density 0.4 /\ density 0.9 /\ 0.4 < 0.9 /\
  (Scalar.riemann_traffic_exact 0.4 0.9 0 = 0.4 \/
   Scalar.riemann_traffic_exact 0.4 0.9 0 = 0.9) /\
  flux (Scalar.riemann_traffic_exact 0.4 0.9 0) <= flux 0.4 /\
  flux (Scalar.riemann_traffic_exact 0.4 0.9 0) <= flux 0.9.
Proof.
  assert (Hl : density 0.4) by (unfold density; lra).
  assert (Hr : density 0.9) by (unfold density; lra).
  assert (H : 0.4 < 0.9) by lra.
  split; [exact Hl | split; [exact Hr | split; [exact H |]]].
  exact (interface_state_across_shock 0.4 0.9 Hl Hr H).
Defined.

(** * The plotting cells *)

(** ** Sampling *)

Lemma np_linspace_length (start stop : Q) (num : nat) :
  length (np_linspace start stop num) = num.
Proof.
  destruct num as [|[|n]]; try reflexivity.
  unfold np_linspace. now rewrite length_map, length_seq.
Qed.

Lemma np_linspace_nth (start stop : Q) (n i : nat) :
  (i < S (S n))%nat ->
  nth_error (np_linspace start stop (S (S n))) i
  = Some (start + inject_Z (Z.of_nat i)
                  * ((stop - start) / inject_Z (Z.of_nat (S n)))).
Proof.
  intro H. unfold np_linspace.
  rewrite nth_error_map, nth_error_seq.
  destruct (Nat.ltb_spec i (S (S n))); [|lia].
  reflexivity.
Qed.

(** ** The similarity variable [x/t] *)

Lemma div_lt_iff (x t c : Q) : 0 < t -> (x / t < c <-> x < c * t).
Proof.
  intro H. rewrite <- (Qmult_lt_r (x / t) c t H).
  assert (E : x / t * t == x) by (field; lra).
  now rewrite E.
Qed.

Lemma lt_div_iff (x t c : Q) : 0 < t -> (c < x / t <-> c * t < x).
Proof.
  intro H. rewrite <- (Qmult_lt_r c (x / t) t H).
  assert (E : x / t * t == x) by (field; lra).
  now rewrite E.
Qed.

(** ** The scalar evaluator outside all waves *)

Lemma scalar_value_far_left (q_l q_r xi : Q) :
  density q_l -> density q_r -> xi < -1 ->
  Scalar.riemann_traffic_exact q_l q_r xi = q_l.
Proof.
  unfold density, Scalar.riemann_traffic_exact. intros Hl Hr H. cbv zeta.
  destruct (Qlt_bool_spec q_l q_r) as [L|L].
  - rewrite Qlt_bool_true; [reflexivity|].
    rewrite shock_speed_closed_form by lra. lra.
  - rewrite Qlt_bool_true; [reflexivity | lra].
Qed.

Lemma scalar_value_far_right (q_l q_r xi : Q) :
  density q_l -> density q_r -> 1 < xi ->
  Scalar.riemann_traffic_exact q_l q_r xi = q_r.
Proof.
  unfold density, Scalar.riemann_traffic_exact. intros Hl Hr H. cbv zeta.
  destruct (Qlt_bool_spec q_l q_r) as [L|L].
  - rewrite Qlt_bool_false; [reflexivity|].
    rewrite shock_speed_closed_form by lra. lra.
  - rewrite Qlt_bool_false by lra.
    rewrite Qlt_bool_true; [reflexivity | lra].
Qed.

Lemma scalar_value_density (q_l q_r xi : Q) :
  density q_l -> density q_r ->
  density (Scalar.riemann_traffic_exact q_l q_r xi).
Proof.
  unfold density, Scalar.riemann_traffic_exact. cbv zeta.
  value_cases; intros; lra.
Qed.

(** X7. For densities in [[0,1]] and a time [0 < t <= 1] the curve
    [plot_riemann_traffic] draws has 500 samples, begins at the left state,
    ends at the right state, and all its values are densities in [[0,1]]:
    the window [[-2,2]] always shows both outer states. *)
Theorem plot_riemann_traffic_window (q_l q_r t : Q) :
  density q_l -> density q_r -> 0 < t -> t <= 1 ->
  let (x, q) := plot_riemann_traffic q_l q_r t in
  length x = 500%nat /\ length q = 500%nat /\
  nth_error q 0 = Some q_l /\ nth_error q 499 = Some q_r /\
  Forall density q.
Proof.
  intros Hl Hr H0 H1. unfold plot_riemann_traffic. cbv zeta.
  split; [apply np_linspace_length|].
  split; [now rewrite !length_map, np_linspace_length|].
  rewrite !nth_error_map.
  rewrite !(np_linspace_nth (-2) 2 498) by lia.
  unfold option_map.
  split; [|split].
  - f_equal. apply scalar_value_far_left; try assumption.
    apply div_lt_iff; [assumption|].
    match goal with |- ?x < _ => assert (E : x == -2) by reflexivity end.
    rewrite E. lra.
  - f_equal. apply scalar_value_far_right; try assumption.
    apply lt_div_iff; [assumption|].
    match goal with |- _ < ?x => assert (E : x == 2) by reflexivity end.
    rewrite E. lra.
  - apply Forall_map, Forall_forall. intros xi _.
    now apply scalar_value_density.
Qed.

Lemma plot_riemann_traffic_window_witness :
  density 0.5 /\ density 0 /\ 0 < 0.1 /\ 0.1 <= 1 /\
  let (x, q) := plot_riemann_traffic 0.5 0 0.1 in
  length x = 500%nat /\ length q = 500%nat /\
  nth_error q 0 = Some 0.5 /\ nth_error q 499 = Some 0 /\
  Forall density q.
Proof.
  assert (Hl : density 0.5) by (unfold density; lra).
  assert (Hr : density 0) by (unfold density; lra).
  assert (H0 : 0 < 0.1) by lra.
  assert (H1 : 0.1 <= 1) by lra.
  split; [exact Hl | split; [exact Hr | split; [exact H0 | split;
    [exact H1 |]]]].
  exact (plot_riemann_traffic_window 0.5 0 0.1 Hl Hr H0 H1).
Defined.

(** ** The green light *)

(** X9. [green_light] draws the fan of the solver for the left state
    [q_l = 1].  For [q_r] in [[0,1]] and [0 <= t <= 1] the two edges it
    draws sit at [t] times the ends of the rarefaction interval the solver
    returns for [(1, q_r)], and they are in order and inside the plot:
    [-1 <= left_edge <= right_edge <= 1]. *)
Theorem green_light_edges (q_r t : Q) :
  density q_r -> 0 <= t -> t <= 1 ->
  exists left_edge right_edge c_l c_r,
    green_light q_r t
    = [ ([-1; left_edge], [1; 1]);
        ([left_edge; right_edge], [1; q_r]);
        ([right_edge; 1], [q_r; q_r]) ]
    /\ Vectorized.speeds 1 q_r = Some [Rarefaction c_l c_r]
    /\ left_edge == t * c_l /\ right_edge == t * c_r
    /\ -1 <= left_edge /\ left_edge <= right_edge /\ right_edge <= 1.
Proof.
  unfold density. intros Hr H0 H1.
  assert (N : ~ 1 < q_r) by lra.
  rewrite speeds_eq. unfold wave_of, green_light. cbv zeta.
  rewrite (Qlt_bool_false _ _ N).
  do 4 eexists. split; [reflexivity|]. split; [reflexivity|].
  split; [ring|]. split; [ring|].
  split; [lra|]. split; nra.
Qed.

Lemma green_light_edges_witness :
  density 0 /\ 0 <= 0.1 /\ 0.1 <= 1 /\
  exists left_edge right_edge c_l c_r,
    green_light 0 0.1
    = [ ([-1; left_edge], [1; 1]);
        ([left_edge; right_edge], [1; 0]);
        ([right_edge; 1], [0; 0]) ]
    /\ Vectorized.speeds 1 0 = Some [Rarefaction c_l c_r]
    /\ left_edge == 0.1 * c_l /\ right_edge == 0.1 * c_r
    /\ -1 <= left_edge /\ left_edge <= right_edge /\ right_edge <= 1.
Proof.
  assert (Hr : density 0) by (unfold density; lra).
  assert (H0 : 0 <= 0.1) by lra.
  assert (H1 : 0.1 <= 1) by lra.
  split; [exact Hr | split; [exact H0 | split; [exact H1 |]]].
  exact (green_light_edges 0 0.1 Hr H0 H1).
Defined.

(** ** Densities with velocities *)

Section WithSpeed.

Variable row : list Q -> list Q.
Hypothesis row_length : forall a, length (row a) = length a.

(** On an array [reval_with_speed] allocates three arrays: the densities
    returned by [reval], the velocities, and the two stacked. *)
Lemma reval_with_speed_array (a : list Q) (h : heap) :
  reval_with_speed (Vectorized.reval_body row) (NdArray a) h
  = (inr (S (S (length h))),
     h ++ [ONdArray [row a];
           ONdArray [map (fun q => 1 - q) (row a)];
           ONdArray [row a; map (fun q => 1 - q) (row a)]]).
Proof.
  unfold reval_with_speed, bind.
  rewrite (reval_body_array row row_length).
  unfold np_rsub. rewrite deref_alloc.
  unfold alloc, np_vstack.
  rewrite deref_alloc.
  rewrite deref_old by (rewrite length_app; simpl; lia).
  rewrite deref_alloc.
  simpl forallb. rewrite length_map, Nat.eqb_refl. simpl.
  unfold ret. rewrite !length_app. simpl length.
  rewrite <- !app_assoc. simpl.
  f_equal. f_equal. lia.
Qed.

Lemma reval_with_speed_float (x : Q) (h : heap) :
  reval_with_speed (Vectorized.reval_body row) (PyFloat x) h
  = (inl TypeError, h).
Proof. reflexivity. Qed.

End WithSpeed.

Lemma plot_car_trajectories_run (q_l q_r : Q) (h : heap) :
  plot_car_trajectories q_l q_r h
  = (inr (length h, S (length h),
           reval_with_speed (Vectorized.reval_body (row_of q_l q_r))),
     h ++ [ONdArray [[q_l; q_r]]; OList [wave_of q_l q_r]]).
Proof.
  unfold plot_car_trajectories, bind.
  now rewrite riemann_traffic_exact_run.
Qed.

Lemma evaluate_with_speed_array (q_l q_r : Q) (a : list Q) :
  evaluate_with_speed q_l q_r (NdArray a)
  = inr [map (value q_l q_r) a;
         map (fun q => 1 - q) (map (value q_l q_r) a)].
Proof.
  unfold evaluate_with_speed. rewrite plot_car_trajectories_run.
  rewrite reval_with_speed_array by apply row_of_length.
  unfold Vectorized.read_array, deref.
  rewrite nth_error_app2 by (simpl; lia).
  replace (S (S (length ([] ++ [ONdArray [[q_l; q_r]];
                                OList [wave_of q_l q_r]])))
           - length ([] ++ [ONdArray [[q_l; q_r]];
                            OList [wave_of q_l q_r]]))%nat
    with 2%nat by (simpl; lia).
  simpl. now rewrite row_of_map.
Qed.

(** X10. [reval_with_speed] accepts what [reval] accepts.  On an array of
    [n] values it returns an array of shape [(2, n)]: the densities that
    [reval] returns, above the velocities [1 - q]; on a scalar it raises
    the [TypeError] of [reval]. *)
Theorem reval_with_speed_rows (q_l q_r : Q) :
  (forall a : list Q,
      exists dens,
        Vectorized.evaluate q_l q_r (NdArray a) = inr [dens] /\
        evaluate_with_speed q_l q_r (NdArray a)
        = inr [dens; map (fun q => 1 - q) dens] /\
        length dens = length a) /\
  (forall x : Q, evaluate_with_speed q_l q_r (PyFloat x) = inl TypeError).
Proof.
  split.
  - intro a. rewrite evaluate_array, evaluate_with_speed_array.
    eexists. split; [reflexivity|]. split; [reflexivity|].
    apply length_map.
  - intro x. unfold evaluate_with_speed.
    now rewrite plot_car_trajectories_run.
Qed.

(** ** The flux curve *)

(** The samples of [np.linspace] lie between its end points. *)
Lemma np_linspace_bounds (start stop x : Q) (num : nat) :
  start <= stop -> In x (np_linspace start stop num) ->
  start <= x <= stop.
Proof.
  intros H Hx. destruct num as [|[|n]].
  - destruct Hx.
  - destruct Hx as [<-|[]]. split; [apply Qle_refl | exact H].
  - unfold np_linspace in Hx. apply in_map_iff in Hx.
    destruct Hx as (i & <- & Hi). apply in_seq in Hi.
    set (k := inject_Z (Z.of_nat (S (S n) - 1))).
    set (j := inject_Z (Z.of_nat i)).
    assert (Hk : 0 < k)
      by (unfold k; rewrite <- (Zlt_Qlt 0); lia).
    assert (Hj : 0 <= j)
      by (unfold j; rewrite <- (Zle_Qle 0); lia).
    assert (Hjk : j <= k)
      by (unfold j, k; rewrite <- Zle_Qle; lia).
    set (w := (stop - start) / k).
    assert (E : w * k == stop - start) by (unfold w; field; lra).
    assert (Hw : 0 <= w)
      by (unfold w; apply Qle_shift_div_l; [exact Hk | lra]).
    split; nra.
Qed.

Lemma flux_range (q : Q) : density q -> 0 <= q * (1 - q) <= 1 # 4.
Proof.
  unfold density. intros [H0 H1]. split.
  - apply Qmult_le_0_compat; lra.
  - assert (S : 0 <= (q - (1 # 2)) * (q - (1 # 2))).
    { destruct (Qlt_le_dec q (1 # 2)).
      - setoid_replace ((q - (1 # 2)) * (q - (1 # 2)))
          with (((1 # 2) - q) * ((1 # 2) - q)) by ring.
        apply Qmult_le_0_compat; lra.
      - apply Qmult_le_0_compat; lra. }
    setoid_replace (q * (1 - q))
      with ((1 # 4) - (q - (1 # 2)) * (q - (1 # 2))) by ring.
    lra.
Qed.

(** X12. For a density [q] in [[0,1]] the flux [q*(1-q)] lies in
    [[0, 1/4]]; the first cell draws 50 values of the flux, all of which
    lie in [[0, 1/4]]. *)
Theorem flux_in_0_quarter :
  (forall q : Q, density q -> 0 <= flux q <= 1 # 4) /\
  (let (q, f) := flux_curve in
   length q = 50%nat /\ length f = 50%nat /\
   Forall (fun v => 0 <= v <= 1 # 4) f).
Proof.
  split.
  - intros q H. now apply flux_range.
  - unfold flux_curve. cbv zeta.
    split; [apply np_linspace_length|].
    split; [now rewrite length_map, np_linspace_length|].
    apply Forall_map, Forall_forall. intros q Hq.
    apply flux_range. unfold density.
    apply (np_linspace_bounds 0 1 q 50); [lra | exact Hq].
Qed.

Lemma flux_in_0_quarter_witness :
  density 0.3 /\ 0 <= flux 0.3 <= 1 # 4.
Proof.
  assert (H : density 0.3) by (unfold density; lra).
  split; [exact H|].
  exact (proj1 flux_in_0_quarter 0.3 H).
Defined.
